(** * The chat gateway of [backend/main.py]: handlers, history buffer, feedback

    A shallow embedding of the FastAPI handlers of [src/backend/main.py].
    The handlers are Python functions that read and mutate one module
    global ([chat_history], a name bound to a list object), call an external
    inference client and raise exceptions.  They are embedded as functions of
    a state-and-exception monad over an explicit object store, so that the
    aliasing between the global and a list that a handler has returned is
    visible. *)

From stdpp Require Import base option list strings gmap pretty.

Open Scope Z_scope.

(** ** The Python fragment the handlers use *)

Module Py.

(** Exceptions, by the only distinction the handlers make: [except Exception]
    catches instances of [Exception], among them [fastapi.HTTPException];
    what derives from [BaseException] alone ([KeyboardInterrupt],
    [SystemExit], ...) passes through.  Apart from [HTTPException], an
    exception carries its [str(e)]. *)
Inductive exception : Type :=
  | HTTPException (status_code : Z) (detail : string)
  | Exception (description : string)
  | BaseException (description : string).

Definition isinstance_Exception (e : exception) : bool :=
  match e with
  | HTTPException _ _ | Exception _ => true
  | BaseException _ => false
  end.

(** How a call ends: it returns a value or it raises. *)
Inductive result (A : Type) : Type :=
  | Return (a : A)
  | Raise (e : exception).
Arguments Return {A} a.
Arguments Raise {A} e.

(** A dict with string keys and string values: the messages exchanged with
    the serving endpoint, and the small JSON bodies the handlers return. *)
Abbreviation dict := (gmap string string).

(** Truthiness of [d.get(k)]: [None] (absent key) and [""] are falsy. *)
Definition truthy (v : option string) : bool :=
  match v with
  | Some s => negb (String.eqb s "")
  | None => false
  end.

(** [f"...{s}"] for a prefix and one interpolated string. *)
Definition fstring (prefix s : string) : string := prefix +:+ s.

End Py.
Export Py.

(** ** Data model (the pydantic models and the history record) *)

Module ChatMessage.
Record t : Type := mk { message : string; timestamp : option string }.
End ChatMessage.

Module ChatResponse.
Record t : Type := mk { message : string; timestamp : string; request_id : option string }.
End ChatResponse.

Module HealthResponse.
Record t : Type := mk {
  status : string;
  timestamp : string;
  serving_endpoint : string;
  endpoint_supports_feedback : bool }.
End HealthResponse.

(** The dict literal that [chat] appends to [chat_history]: four fixed keys,
    [request_id] holding [None] or a string. *)
Module ChatExchange.
Record t : Type := mk {
  user_message : string;
  assistant_message : string;
  timestamp : string;
  request_id : option string }.
End ChatExchange.

(** ** The process state *)

(** Identity of a list object. *)
Abbreviation loc := nat.

(** Calls that leave the process, as [model_serving_utils] receives them. *)
Inductive call : Type :=
  | Call_query_endpoint (endpoint_name : string) (messages : list dict)
      (max_tokens : Z) (return_traces : bool)
  | Call_submit_feedback (endpoint : string) (request_id : string) (rating : Z).

Record State : Type := mkState {
  heap : gmap loc (list ChatExchange.t);  (* the list objects built so far *)
  next_loc : loc;                         (* identity of the next list object *)
  chat_history : loc;                     (* the global name [chat_history] *)
  calls : list call;                      (* external calls so far, oldest first *)
  clock : nat }.                          (* readings of [datetime.now()] so far *)

(** What the name [chat_history] currently denotes. *)
Definition history (s : State) : list ChatExchange.t := heap s !!! chat_history s.

(** What a reference to a list object denotes in a state. *)
Definition deref (s : State) (l : loc) : list ChatExchange.t := heap s !!! l.

(** Module initialisation, line 69: [chat_history = []]. *)
Definition init : State :=
  {| heap := {[ 0%nat := [] ]}; next_loc := 1; chat_history := 0; calls := []; clock := 0 |}.

(** The global names an existing list object, and object identities at or
    above [next_loc] are unused. *)
Definition wf (s : State) : Prop :=
  is_Some (heap s !! chat_history s) ∧ ∀ l : loc, (next_loc s ≤ l)%nat → heap s !! l = None.

(** ** Handlers as state-and-exception computations *)

Definition M (A : Type) : Type := State → result A * State.

Definition ret {A} (a : A) : M A := λ s, (Return a, s).
Definition raise {A} (e : exception) : M A := λ s, (Raise e, s).
Definition bind {A B} (m : M A) (k : A → M B) : M B :=
  λ s, match m s with
       | (Return a, s') => k a s'
       | (Raise e, s') => (Raise e, s')
       end.

(** [try: body except Exception as e: handler].  Effects of [body] stay. *)
Definition try_except_Exception {A} (body : M A) (handler : exception → M A) : M A :=
  λ s, match body s with
       | (Return a, s') => (Return a, s')
       | (Raise e, s') => if isinstance_Exception e then handler e s' else (Raise e, s')
       end.

Declare Scope py_scope.
Delimit Scope py_scope with py.
Notation "x <- m ;; k" := (bind m (λ x, k))
  (at level 100, m at next level, right associativity) : py_scope.
Notation "m ;; k" := (bind m (λ _, k))
  (at level 100, right associativity) : py_scope.

(** Operations on list objects and on the global name. *)

(** [l.append(x)] *)
Definition list_append (l : loc) (x : ChatExchange.t) : M unit :=
  λ s, (Return tt,
        mkState (alter (λ xs, xs ++ [x]) l (heap s)) (next_loc s) (chat_history s) (calls s) (clock s)).

(** [len(l)] *)
Definition len (l : loc) : M Z :=
  λ s, (Return (Z.of_nat (length (deref s l))), s).

(** [l.pop(0)]: removes and returns the first element, [IndexError] on an
    empty list. *)
Definition list_pop_0 (l : loc) : M ChatExchange.t :=
  λ s, match deref s l with
       | [] => (Raise (Exception "pop from empty list"), s)
       | x :: _ =>
           (Return x,
            mkState (alter (drop 1) l (heap s)) (next_loc s) (chat_history s) (calls s) (clock s))
       end.

(** The display [[]]: a new, empty list object. *)
Definition new_list : M loc :=
  λ s, (Return (next_loc s),
        mkState (<[next_loc s := []]> (heap s)) (S (next_loc s)) (chat_history s) (calls s) (clock s)).

(** Reading and rebinding the global name [chat_history]. *)
Definition get_chat_history_global : M loc := λ s, (Return (chat_history s), s).
Definition set_chat_history_global (l : loc) : M unit :=
  λ s, (Return tt, mkState (heap s) (next_loc s) l (calls s) (clock s)).

(** [d[k]], [KeyError] on an absent key. *)
Definition getitem (d : dict) (k : string) : M string :=
  match d !! k with
  | Some v => ret v
  | None => raise (Exception ("'" +:+ k +:+ "'"))
  end.

(** ** The collaborators of the module

    [model_serving_utils], the process environment, the clock and
    Starlette's [HTTPException.__str__] are outside [backend/main.py]; the
    handlers are embedded over any behaviour of them.  The two remote calls
    may answer differently from call to call: they are given the calls made
    before. *)

Record World : Type := mkWorld {
  (** [os.getenv('SERVING_ENDPOINT')] *)
  getenv_SERVING_ENDPOINT : option string;
  endpoint_supports_feedback : string → bool;
  query_endpoint :
    list call → string → list dict → Z → bool → result (list dict * option string);
  submit_feedback : list call → string → string → Z → result unit;
  (** [datetime.now().isoformat()] at the n-th reading of the clock *)
  datetime_now_isoformat : nat → string;
  (** [str(e)] for [e = HTTPException(status_code, detail)] *)
  HTTPException_str : Z → string → string }.

Section Handlers.

Variable W : World.

(** [str(e)] *)
Definition str (e : exception) : string :=
  match e with
  | HTTPException status_code detail => HTTPException_str W status_code detail
  | Exception description | BaseException description => description
  end.

(** Lines 42-48: the configured endpoint, or the default one when the
    variable is unset or empty. *)
Definition SERVING_ENDPOINT : string :=
  match getenv_SERVING_ENDPOINT W with
  | Some v => if String.eqb v "" then "ka-981b9343-endpoint" else v
  | None => "ka-981b9343-endpoint"
  end.

(** Line 50: computed once, when the module is loaded. *)
Definition ENDPOINT_SUPPORTS_FEEDBACK : bool :=
  endpoint_supports_feedback W SERVING_ENDPOINT.

(** The external calls: each is recorded, then answered by the world. *)
Definition do_query_endpoint (endpoint_name : string) (messages : list dict)
    (max_tokens : Z) (return_traces : bool) : M (list dict * option string) :=
  λ s,
    (query_endpoint W (calls s) endpoint_name messages max_tokens return_traces,
     mkState (heap s) (next_loc s) (chat_history s)
       (calls s ++ [Call_query_endpoint endpoint_name messages max_tokens return_traces])
       (clock s)).

Definition do_submit_feedback (endpoint request_id : string) (rating : Z) : M unit :=
  λ s,
    (submit_feedback W (calls s) endpoint request_id rating,
     mkState (heap s) (next_loc s) (chat_history s)
       (calls s ++ [Call_submit_feedback endpoint request_id rating])
       (clock s)).

Definition now_isoformat : M string :=
  λ s,
    (Return (datetime_now_isoformat W (clock s)),
     mkState (heap s) (next_loc s) (chat_history s) (calls s) (S (clock s))).

Open Scope py_scope.

(** Lines 72-81. *)
Definition health_check : M HealthResponse.t :=
  timestamp <- now_isoformat ;;
  ret (HealthResponse.mk "healthy" timestamp SERVING_ENDPOINT ENDPOINT_SUPPORTS_FEEDBACK).

(** Lines 105-108: the loop over [response_messages], with its [break];
    [assistant_message] is the variable's value before the loop. *)
Fixpoint for_msg_in (response_messages : list dict) (assistant_message : string) : M string :=
  match response_messages with
  | [] => ret assistant_message
  | msg :: rest =>
      if bool_decide (msg !! "role" = Some "assistant") && truthy (msg !! "content")
      then getitem msg "content"
      else for_msg_in rest assistant_message
  end.

(** Lines 84-137. *)
Definition chat (message : ChatMessage.t) : M ChatResponse.t :=
  try_except_Exception
    (let input_messages : list dict :=
       [ {[ "role" := "user"; "content" := ChatMessage.message message ]} ] in
     r <- do_query_endpoint SERVING_ENDPOINT input_messages 400 ENDPOINT_SUPPORTS_FEEDBACK ;;
     let '(response_messages, request_id) := r in
     assistant_message <- for_msg_in response_messages "" ;;
     let assistant_message :=
       if negb (truthy (Some assistant_message))
       then "I'm sorry, I couldn't generate a response. Please try again."
       else assistant_message in
     timestamp <- now_isoformat ;;
     let response := ChatResponse.mk assistant_message timestamp request_id in
     l <- get_chat_history_global ;;
     list_append l
       (ChatExchange.mk (ChatMessage.message message) (ChatResponse.message response)
          (ChatResponse.timestamp response) (ChatResponse.request_id response)) ;;
     l <- get_chat_history_global ;;
     n <- len l ;;
     (if bool_decide (100 < n)
      then (l <- get_chat_history_global ;; list_pop_0 l ;; ret tt)
      else ret tt) ;;
     ret response)
    (λ e, raise (HTTPException 500 (fstring "Error processing message: " (str e)))).

(** Lines 139-143: the returned dict holds the list object that the global
    names, not a copy of it. *)
Definition get_chat_history : M (gmap string loc) :=
  l <- get_chat_history_global ;;
  ret {[ "history" := l ]}.

(** Lines 145-151. *)
Definition clear_chat_history : M dict :=
  l <- new_list ;;
  set_chat_history_global l ;;
  ret {[ "message" := "Chat history cleared" ]}.

(** Lines 153-171. *)
Definition submit_chat_feedback (request_id : string) (rating : Z) : M dict :=
  try_except_Exception
    ((if negb ENDPOINT_SUPPORTS_FEEDBACK
      then raise (HTTPException 400 "Feedback not supported by this endpoint")
      else ret tt) ;;
     do_submit_feedback SERVING_ENDPOINT request_id rating ;;
     ret {[ "message" := "Feedback submitted successfully" ]})
    (λ e, raise (HTTPException 500 (fstring "Error submitting feedback: " (str e)))).

Close Scope py_scope.

End Handlers.

(** ** The server: one handler per request, one request after the other *)

Inductive request : Type :=
  | GET_health
  | POST_chat (message : ChatMessage.t)
  | GET_chat_history
  | DELETE_chat_history
  | POST_feedback (request_id : string) (rating : Z).

Inductive outcome : Type :=
  | Health (r : result HealthResponse.t)
  | Chat (r : result ChatResponse.t)
  | History (r : result (gmap string loc))
  | Cleared (r : result dict)
  | Feedback (r : result dict).

Definition handle (W : World) (rq : request) (s : State) : outcome * State :=
  match rq with
  | GET_health => let '(r, s') := health_check W s in (Health r, s')
  | POST_chat message => let '(r, s') := chat W message s in (Chat r, s')
  | GET_chat_history => let '(r, s') := get_chat_history s in (History r, s')
  | DELETE_chat_history => let '(r, s') := clear_chat_history s in (Cleared r, s')
  | POST_feedback request_id rating =>
      let '(r, s') := submit_chat_feedback W request_id rating s in (Feedback r, s')
  end.

Fixpoint serve (W : World) (rqs : list request) (s : State) : list outcome * State :=
  match rqs with
  | [] => ([], s)
  | rq :: rest =>
      let '(o, s') := handle W rq s in
      let '(os, s'') := serve W rest s' in
      (o :: os, s'')
  end.

(** The status line that FastAPI derives from a handler's outcome: 200 for a
    returned value that it can encode (the constant dicts of the handlers
    always are; the encoding of a returned [ChatResponse] is the framework's
    and is not modelled), the exception's own code for an [HTTPException],
    500 for any other [Exception]. *)
Definition status_code_of {A} (r : result A) : option Z :=
  match r with
  | Return _ => Some 200
  | Raise (HTTPException status_code _) => Some status_code
  | Raise (Exception _) => Some 500
  | Raise (BaseException _) => None
  end.

(** The JSON body of an error response, [{"detail": ...}]. *)
Definition error_body {A} (r : result A) : option dict :=
  match r with
  | Raise (HTTPException _ detail) => Some {[ "detail" := detail ]}
  | _ => None
  end.

(** ** Reference functions for the proofs *)

(** The reply that the loop of [chat] finds, if any. *)
Fixpoint first_reply (response_messages : list dict) : option string :=
  match response_messages with
  | [] => None
  | msg :: rest =>
      if bool_decide (msg !! "role" = Some "assistant") && truthy (msg !! "content")
      then msg !! "content"
      else first_reply rest
  end.

Definition fallback : string :=
  "I'm sorry, I couldn't generate a response. Please try again.".

(** The reply text that [chat] answers with and stores. *)
Definition reply (response_messages : list dict) : string :=
  match first_reply response_messages with
  | Some c => if String.eqb c "" then fallback else c
  | None => fallback
  end.

(** Append with the bound of lines 129-130: one [pop(0)] above 100. *)
Definition push (x : ChatExchange.t) (xs : list ChatExchange.t) : list ChatExchange.t :=
  if bool_decide (100 < Z.of_nat (length (xs ++ [x]))) then drop 1 (xs ++ [x]) else xs ++ [x].

(** The record stored for a request and its response. *)
Definition exchange (message : ChatMessage.t) (response : ChatResponse.t) : ChatExchange.t :=
  ChatExchange.mk (ChatMessage.message message) (ChatResponse.message response)
    (ChatResponse.timestamp response) (ChatResponse.request_id response).

(** The arguments of the inference call that [chat] makes. *)
Definition chat_query (W : World) (message : ChatMessage.t) (s : State) :
    result (list dict * option string) :=
  query_endpoint W (calls s) (SERVING_ENDPOINT W)
    [ {[ "role" := "user"; "content" := ChatMessage.message message ]} ] 400
    (ENDPOINT_SUPPORTS_FEEDBACK W).

Definition chat_call (W : World) (message : ChatMessage.t) : call :=
  Call_query_endpoint (SERVING_ENDPOINT W)
    [ {[ "role" := "user"; "content" := ChatMessage.message message ]} ] 400
    (ENDPOINT_SUPPORTS_FEEDBACK W).

(** The invariant of the history store. *)
Definition Inv (s : State) : Prop := wf s ∧ (length (history s) ≤ 100)%nat.

(** "An entry whose role is assistant and whose content is non-empty", as
    the specification words it. *)
Definition assistant_with_content (msg : dict) (c : string) : Prop :=
  msg !! "role" = Some "assistant" ∧ msg !! "content" = Some c ∧ c ≠ "".

(** ** A concrete world, for examples

    The endpoint has no feedback capability.  The inference client answers
    by the user's text: an error for ["fail"], a list without a usable reply
    for ["none"], two replies after two unusable entries for ["multi"], one
    reply otherwise. *)
Definition demo_query_endpoint (_ : list call) (_ : string) (messages : list dict)
    (_ : Z) (_ : bool) : result (list dict * option string) :=
  match messages with
  | [m] =>
      match m !! "content" with
      | Some "fail" => Raise (Exception "connection refused")
      | Some "none" =>
          Return ([ {[ "role" := "user"; "content" := "none" ]};
                    {[ "role" := "assistant"; "content" := "" ]};
                    {[ "role" := "assistant" ]} ], None)
      | Some "multi" =>
          Return ([ {[ "role" := "tool"; "content" := "lookup" ]};
                    {[ "role" := "assistant"; "content" := "" ]};
                    {[ "role" := "assistant"; "content" := "first" ]};
                    {[ "role" := "assistant"; "content" := "second" ]} ], Some "r2")
      | _ => Return ([ {[ "role" := "assistant"; "content" := "hi there" ]} ], Some "r1")
      end
  | _ => Raise (Exception "bad request")
  end.

Definition demo : World :=
  {| getenv_SERVING_ENDPOINT := None;
     endpoint_supports_feedback := λ _, false;
     query_endpoint := demo_query_endpoint;
     submit_feedback := λ _ _ _ _, Return tt;
     datetime_now_isoformat := λ n, "2024-01-01T00:00:00." +:+ pretty n;
     HTTPException_str := λ status_code detail, pretty status_code +:+ ": " +:+ detail |}.

Definition hello : ChatMessage.t := ChatMessage.mk "hello" None.

(** The responses of the concrete world to [n] requests [hello] in a row,
    the first of them at reading [c] of the clock. *)
Definition hello_responses (c n : nat) : list ChatResponse.t :=
  (λ k, ChatResponse.mk "hi there" (datetime_now_isoformat demo k) (Some "r1")) <$> seq c n.

(** ** Reference functions for the server as a whole *)

(** The external calls that one request causes. *)
Definition calls_of (W : World) (rq : request) : list call :=
  match rq with
  | POST_chat message => [chat_call W message]
  | POST_feedback request_id rating =>
      if ENDPOINT_SUPPORTS_FEEDBACK W
      then [Call_submit_feedback (SERVING_ENDPOINT W) request_id rating]
      else []
  | _ => []
  end.

(** The history as the log of requests and outcomes determines it: a chat
    that returned appends its record under the bound, a clear empties, and
    everything else, a failed chat included, changes nothing. *)
Fixpoint replay (log : list (request * outcome)) (h : list ChatExchange.t) :
    list ChatExchange.t :=
  match log with
  | [] => h
  | (POST_chat message, Chat (Return response)) :: rest =>
      replay rest (push (exchange message response) h)
  | (DELETE_chat_history, _) :: rest => replay rest []
  | _ :: rest => replay rest h
  end.

(** A second concrete world: the endpoint takes feedback, except for the
    request id ["gone"]; the inference client is down and raises an HTTP
    error of its own. *)
Definition demo_fb : World :=
  {| getenv_SERVING_ENDPOINT := Some "agents-prod";
     endpoint_supports_feedback := λ _, true;
     query_endpoint := λ _ _ _ _ _, Raise (HTTPException 404 "endpoint not found");
     submit_feedback := λ _ _ request_id _,
       if String.eqb request_id "gone"
       then Raise (Exception "request not found") else Return tt;
     datetime_now_isoformat := λ n, "2024-01-01T00:00:00." +:+ pretty n;
     HTTPException_str := λ status_code detail, pretty status_code +:+ ": " +:+ detail |}.

(** The records that a log of requests and outcomes shows as appended: one
    per chat that returned, in the order of the log. *)
Fixpoint appended (log : list (request * outcome)) : list ChatExchange.t :=
  match log with
  | [] => []
  | (POST_chat message, Chat (Return response)) :: rest =>
      exchange message response :: appended rest
  | _ :: rest => appended rest
  end.

(** ** What the client of [GET /api/chat/history] receives

    The handler returns a dict that holds the list object itself.  FastAPI
    encodes a returned value to JSON as soon as the handler has returned,
    before any other handler runs (the encoding of a plain dict does not
    suspend): the body holds the elements that the list has at that moment.
    The encoder is the framework's, not this module's; it is modelled as
    reading each list reference in the state the handler left. *)
Definition encode_history (s : State) (r : result (gmap string loc)) :
    result (gmap string (list ChatExchange.t)) :=
  match r with
  | Return d => Return (deref s <$> d)
  | Raise e => Raise e
  end.

(** What is sent for an outcome: the encoded body for a listing, the outcome
    as it is for the other requests. *)
Inductive response : Type :=
  | Body (r : result (gmap string (list ChatExchange.t)))
  | Plain (o : outcome).

Definition send (s : State) (o : outcome) : response :=
  match o with
  | History r => Body (encode_history s r)
  | _ => Plain o
  end.

Definition respond (W : World) (rq : request) (s : State) : response * State :=
  let '(o, s') := handle W rq s in (send s' o, s').

Fixpoint serve_http (W : World) (rqs : list request) (s : State) : list response * State :=
  match rqs with
  | [] => ([], s)
  | rq :: rest =>
      let '(r, s') := respond W rq s in
      let '(rs, s'') := serve_http W rest s' in
      (r :: rs, s'')
  end.

(** ** Basic facts *)

Section Facts.

Variable W : World.

Lemma for_msg_in_eq (response_messages : list dict) (a : string) (s : State) :
  for_msg_in response_messages a s = (Return (default a (first_reply response_messages)), s).
Proof.
  induction response_messages as [|msg rest IH]; simpl; [done|].
  destruct (bool_decide (msg !! "role" = Some "assistant")) eqn:Hrole; simpl; [|done].
  unfold getitem. destruct (msg !! "content") as [c|] eqn:Hc; simpl; [|done].
  destruct (String.eqb c ""); simpl; done.
Qed.

(** A successful inference: what [chat] returns and the state it leaves. *)
Lemma chat_Return (message : ChatMessage.t) (s : State)
    (response_messages : list dict) (request_id : option string) :
  chat_query W message s = Return (response_messages, request_id) →
  let response :=
    ChatResponse.mk (reply response_messages) (datetime_now_isoformat W (clock s)) request_id in
  chat W message s =
    (Return response,
     mkState (alter (push (exchange message response)) (chat_history s) (heap s))
       (next_loc s) (chat_history s) (calls s ++ [chat_call W message]) (S (clock s))).
Proof.
  intros Hq response. unfold chat_query in Hq.
  unfold chat, try_except_Exception, bind, do_query_endpoint. rewrite Hq.
  rewrite for_msg_in_eq. cbn -[alter].
  assert (Hreply :
    (if negb (negb (String.eqb (default "" (first_reply response_messages)) ""))
     then fallback else default "" (first_reply response_messages)) = reply response_messages).
  { unfold reply. destruct (first_reply response_messages) as [c|]; simpl.
    - by destruct (String.eqb c "").
    - done. }
  unfold fallback in Hreply. rewrite Hreply.
  fold response. unfold deref. cbn -[alter].
  change (ChatExchange.mk (ChatMessage.message message) (reply response_messages)
            (datetime_now_isoformat W (clock s)) request_id)
    with (exchange message response).
  rewrite lookup_total_alter_eq. unfold chat_call.
  destruct (heap s !! chat_history s) as [xs|] eqn:Hl; simpl.
  - destruct (bool_decide (100 < Z.of_nat (length (xs ++ [exchange message response]))))
      eqn:Hb.
    + unfold list_pop_0, deref. cbn -[alter]. rewrite lookup_total_alter_eq, Hl. simpl.
      destruct (xs ++ [exchange message response]) as [|y ys] eqn:Happ.
      { destruct xs; discriminate. }
      cbn -[alter]. f_equal. f_equal.
      rewrite alter_alter_eq. apply alter_ext. intros zs Hzs.
      rewrite Hl in Hzs. injection Hzs as <-. unfold push. simpl.
      rewrite Happ. by rewrite Hb.
    + cbn -[alter]. f_equal. f_equal. apply alter_ext. intros zs Hzs.
      rewrite Hl in Hzs. injection Hzs as <-. unfold push. by rewrite Hb.
  - rewrite !alter_id' by done. done.
Qed.

(** A failed inference: only the record of the call is added to the state. *)
Lemma chat_Raise (message : ChatMessage.t) (s : State) (e : exception) :
  chat_query W message s = Raise e →
  chat W message s =
    (Raise (if isinstance_Exception e
            then HTTPException 500 (fstring "Error processing message: " (str W e))
            else e),
     mkState (heap s) (next_loc s) (chat_history s) (calls s ++ [chat_call W message])
       (clock s)).
Proof.
  unfold chat_query. intros Hq.
  unfold chat, try_except_Exception, bind, do_query_endpoint. rewrite Hq.
  by destruct (isinstance_Exception e).
Qed.

Lemma push_eq (x : ChatExchange.t) (xs : list ChatExchange.t) :
  push x xs = (if bool_decide (100 ≤ length xs)%nat then drop 1 xs else xs) ++ [x].
Proof.
  unfold push. rewrite length_app. simpl.
  destruct (decide (100 ≤ length xs)%nat) as [Hge|Hlt].
  - rewrite bool_decide_eq_true_2 by lia. rewrite bool_decide_eq_true_2 by done.
    destruct xs; simpl in *; [lia|]. by rewrite !drop_0.
  - rewrite bool_decide_eq_false_2 by lia. by rewrite bool_decide_eq_false_2 by done.
Qed.

Lemma push_last (x : ChatExchange.t) (xs : list ChatExchange.t) : last (push x xs) = Some x.
Proof. rewrite push_eq. apply last_snoc. Qed.

Lemma push_length (x : ChatExchange.t) (xs : list ChatExchange.t) :
  (length xs ≤ 100)%nat → length (push x xs) = Nat.min (S (length xs)) 100.
Proof.
  intros Hle. rewrite push_eq, length_app. simpl. case_bool_decide.
  - rewrite length_drop. lia.
  - lia.
Qed.

(** The store after a successful [chat], read through the global. *)
Lemma chat_Return_history (message : ChatMessage.t) (s : State)
    (response_messages : list dict) (request_id : option string) :
  wf s →
  chat_query W message s = Return (response_messages, request_id) →
  history (chat W message s).2 =
    push (exchange message
            (ChatResponse.mk (reply response_messages) (datetime_now_isoformat W (clock s))
               request_id))
      (history s).
Proof.
  intros [[xs Hxs] _] Hq. rewrite (chat_Return _ _ _ _ Hq). unfold history. simpl.
  rewrite lookup_total_alter_eq, Hxs. simpl. by rewrite (lookup_total_correct _ _ _ Hxs).
Qed.

Lemma chat_wf (message : ChatMessage.t) (s : State) : wf s → wf (chat W message s).2.
Proof.
  intros [Hg Hfree].
  destruct (chat_query W message s) as [[response_messages request_id]|e] eqn:Hq.
  - rewrite (chat_Return _ _ _ _ Hq). split; simpl.
    + by apply lookup_alter_is_Some.
    + intros l Hl. rewrite lookup_alter. case_decide; [subst|]; rewrite Hfree; done.
  - rewrite (chat_Raise _ _ _ Hq). by split.
Qed.

Lemma submit_chat_feedback_store (request_id : string) (rating : Z) (s : State) :
  let s' := (submit_chat_feedback W request_id rating s).2 in
  heap s' = heap s ∧ next_loc s' = next_loc s ∧ chat_history s' = chat_history s.
Proof.
  unfold submit_chat_feedback, try_except_Exception, bind, do_submit_feedback, raise, ret.
  destruct (ENDPOINT_SUPPORTS_FEEDBACK W); simpl; [|done].
  destruct (submit_feedback W (calls s) (SERVING_ENDPOINT W) request_id rating) as [[]|e];
    simpl; [done|].
  by destruct (isinstance_Exception e).
Qed.

Lemma first_reply_cons_hit (msg : dict) (rest : list dict) (c : string) :
  assistant_with_content msg c → first_reply (msg :: rest) = Some c.
Proof.
  intros (Hrole & Hcontent & Hc). simpl.
  rewrite bool_decide_eq_true_2 by done. rewrite Hcontent. simpl.
  apply String.eqb_neq in Hc. by rewrite Hc.
Qed.

Lemma first_reply_cons_miss (msg : dict) (rest : list dict) :
  (∀ c, ¬ assistant_with_content msg c) → first_reply (msg :: rest) = first_reply rest.
Proof.
  intros Hno. simpl.
  destruct (bool_decide (msg !! "role" = Some "assistant")) eqn:Hrole; simpl; [|done].
  apply bool_decide_eq_true_1 in Hrole.
  destruct (msg !! "content") as [c|] eqn:Hcontent; simpl; [|done].
  destruct (String.eqb c "") eqn:Hc; simpl; [done|].
  apply String.eqb_neq in Hc. by destruct (Hno c).
Qed.

Lemma first_reply_skip (pre rest : list dict) :
  (∀ m, m ∈ pre → ∀ c, ¬ assistant_with_content m c) →
  first_reply (pre ++ rest) = first_reply rest.
Proof.
  induction pre as [|m pre IH]; intros Hpre; simpl; [done|].
  change (first_reply (m :: pre ++ rest) = first_reply rest).
  rewrite first_reply_cons_miss by (apply Hpre; by left).
  apply IH. intros m' Hm'. apply Hpre. by right.
Qed.

Lemma reply_hit (pre post : list dict) (msg : dict) (c : string) :
  (∀ m, m ∈ pre → ∀ c', ¬ assistant_with_content m c') →
  assistant_with_content msg c →
  reply (pre ++ msg :: post) = c.
Proof.
  intros Hpre Hmsg. unfold reply.
  rewrite (first_reply_skip _ _ Hpre), (first_reply_cons_hit _ _ _ Hmsg).
  destruct Hmsg as (_ & _ & Hc). apply String.eqb_neq in Hc. by rewrite Hc.
Qed.

Lemma reply_miss (response_messages : list dict) :
  (∀ m, m ∈ response_messages → ∀ c, ¬ assistant_with_content m c) →
  reply response_messages = fallback.
Proof.
  intros Hno. unfold reply.
  rewrite <- (app_nil_r response_messages), (first_reply_skip _ _ Hno). done.
Qed.

Lemma init_wf : wf init.
Proof.
  split; simpl.
  - rewrite lookup_singleton_eq. by eexists.
  - intros l Hl. apply lookup_singleton_ne. lia.
Qed.

End Facts.

(** ** The reply that [chat] selects *)

(** C4: when the inference call returns a message list, [chat] answers with,
    and stores, the content of the first entry in list order whose role is
    "assistant" and whose content is non-empty, whatever entries follow it. *)
Theorem chat_selects_first_assistant_content
    (W : World) (message : ChatMessage.t) (s : State)
    (pre post : list dict) (msg : dict) (c : string) (request_id : option string) :
  wf s →
  chat_query W message s = Return (pre ++ msg :: post, request_id) →
  (∀ m, m ∈ pre → ∀ c', ¬ assistant_with_content m c') →
  assistant_with_content msg c →
  ∃ (response : ChatResponse.t) (s' : State) (x : ChatExchange.t),
    chat W message s = (Return response, s') ∧
    ChatResponse.message response = c ∧
    last (history s') = Some x ∧
    ChatExchange.assistant_message x = c.
Proof.
  intros Hwf Hq Hpre Hmsg.
  pose proof (chat_Return W _ _ _ _ Hq) as Hchat. simpl in Hchat.
  pose proof (chat_Return_history W _ _ _ _ Hwf Hq) as Hhist.
  rewrite Hchat in Hhist. simpl in Hhist.
  eexists _, _, _. split; [exact Hchat|]. simpl.
  split; [by apply reply_hit|]. rewrite Hhist. split; [apply push_last|].
  simpl. by apply reply_hit.
Qed.

Lemma chat_selects_first_assistant_content_witness :
  ∃ (response : ChatResponse.t) (s' : State) (x : ChatExchange.t),
    chat demo (ChatMessage.mk "multi" None) init = (Return response, s') ∧
    ChatResponse.message response = "first" ∧
    last (history s') = Some x ∧
    ChatExchange.assistant_message x = "first".
Proof.
  apply (chat_selects_first_assistant_content demo (ChatMessage.mk "multi" None) init
           [ {[ "role" := "tool"; "content" := "lookup" ]};
             {[ "role" := "assistant"; "content" := "" ]} ]
           [ {[ "role" := "assistant"; "content" := "second" ]} ]
           {[ "role" := "assistant"; "content" := "first" ]} "first" (Some "r2")).
  - apply init_wf.
  - reflexivity.
  - intros m Hm c' (Hrole & Hcontent & Hc).
    apply elem_of_cons in Hm as [->|Hm].
    + vm_compute in Hrole. discriminate.
    + apply elem_of_cons in Hm as [->|Hm]; [|by apply elem_of_nil in Hm].
      vm_compute in Hcontent. injection Hcontent as <-. by apply Hc.
  - repeat split; vm_compute; congruence.
Defined.

(** C5: when the returned message list holds no entry with role "assistant"
    and non-empty content, the message that [chat] returns and the one it
    stores are the fixed fallback text. *)
Theorem chat_falls_back_without_assistant_content
    (W : World) (message : ChatMessage.t) (s : State)
    (response_messages : list dict) (request_id : option string) :
  wf s →
  chat_query W message s = Return (response_messages, request_id) →
  (∀ m, m ∈ response_messages → ∀ c, ¬ assistant_with_content m c) →
  ∃ (response : ChatResponse.t) (s' : State) (x : ChatExchange.t),
    chat W message s = (Return response, s') ∧
    ChatResponse.message response =
      "I'm sorry, I couldn't generate a response. Please try again." ∧
    last (history s') = Some x ∧
    ChatExchange.assistant_message x =
      "I'm sorry, I couldn't generate a response. Please try again.".
Proof.
  intros Hwf Hq Hno.
  pose proof (chat_Return W _ _ _ _ Hq) as Hchat. simpl in Hchat.
  pose proof (chat_Return_history W _ _ _ _ Hwf Hq) as Hhist.
  rewrite Hchat in Hhist. simpl in Hhist.
  eexists _, _, _. split; [exact Hchat|]. simpl.
  split; [by apply reply_miss|]. rewrite Hhist. split; [apply push_last|].
  simpl. by apply reply_miss.
Qed.

Lemma chat_falls_back_without_assistant_content_witness :
  ∃ (response : ChatResponse.t) (s' : State) (x : ChatExchange.t),
    chat demo (ChatMessage.mk "none" None) init = (Return response, s') ∧
    ChatResponse.message response =
      "I'm sorry, I couldn't generate a response. Please try again." ∧
    last (history s') = Some x ∧
    ChatExchange.assistant_message x =
      "I'm sorry, I couldn't generate a response. Please try again.".
Proof.
  apply (chat_falls_back_without_assistant_content demo (ChatMessage.mk "none" None) init
           [ {[ "role" := "user"; "content" := "none" ]};
             {[ "role" := "assistant"; "content" := "" ]};
             {[ "role" := "assistant" ]} ] None).
  - apply init_wf.
  - reflexivity.
  - intros m Hm c (Hrole & Hcontent & Hc).
    apply elem_of_cons in Hm as [->|Hm].
    { vm_compute in Hrole. discriminate. }
    apply elem_of_cons in Hm as [->|Hm].
    { vm_compute in Hcontent. injection Hcontent as <-. by apply Hc. }
    apply elem_of_cons in Hm as [->|Hm]; [|by apply elem_of_nil in Hm].
    vm_compute in Hcontent. discriminate.
Defined.

(** ** Failure of the inference call *)

(** C6: when the inference call raises, the history store is as it was (no
    record is appended; the object store and the global are untouched), and
    when what it raises is an error, that is an instance of [Exception] as
    the handler's [except] clause names it, the answer is HTTP 500 with body
    [{"detail": "Error processing message: <str(e)>"}]. *)
Theorem chat_inference_failure_is_500_and_keeps_history
    (W : World) (message : ChatMessage.t) (s : State) (e : exception) :
  chat_query W message s = Raise e →
  (heap (chat W message s).2 = heap s ∧
   chat_history (chat W message s).2 = chat_history s ∧
   history (chat W message s).2 = history s) ∧
  (isinstance_Exception e = true →
     (chat W message s).1 =
       Raise (HTTPException 500 ("Error processing message: " +:+ str W e)) ∧
     status_code_of (chat W message s).1 = Some 500 ∧
     error_body (chat W message s).1 =
       Some {[ "detail" := "Error processing message: " +:+ str W e ]}).
Proof.
  intros Hq. rewrite (chat_Raise W _ _ _ Hq). split; [done|].
  intros ->. done.
Qed.

Lemma chat_inference_failure_is_500_and_keeps_history_witness :
  history (chat demo (ChatMessage.mk "fail" None) init).2 = history init ∧
  (chat demo (ChatMessage.mk "fail" None) init).1 =
    Raise (HTTPException 500 "Error processing message: connection refused") ∧
  status_code_of (chat demo (ChatMessage.mk "fail" None) init).1 = Some 500.
Proof.
  destruct (chat_inference_failure_is_500_and_keeps_history demo
              (ChatMessage.mk "fail" None) init (Exception "connection refused"))
    as [(_ & _ & Hkeep) H500].
  - reflexivity.
  - destruct H500 as (Hr & Hcode & _); [reflexivity|].
    split; [exact Hkeep|]. split; [exact Hr|exact Hcode].
Defined.

(** ** The client's timestamp *)

(** C10: two [chat] requests that differ only in the optional [timestamp]
    field have the same outcome and leave the same state; the timestamp of a
    successful response, and of the record stored for it, is the reading of
    the server's clock taken when the response is built. *)
Theorem chat_ignores_client_timestamp
    (W : World) (m1 m2 : ChatMessage.t) (s : State) :
  ChatMessage.message m1 = ChatMessage.message m2 →
  chat W m1 s = chat W m2 s ∧
  ∀ (response : ChatResponse.t) (s' : State),
    chat W m1 s = (Return response, s') →
    ChatResponse.timestamp response = datetime_now_isoformat W (clock s) ∧
    (wf s →
     ∃ x, last (history s') = Some x ∧
          ChatExchange.timestamp x = datetime_now_isoformat W (clock s)).
Proof.
  intros Hm. split.
  - unfold chat. by rewrite Hm.
  - intros response s' Hchat.
    destruct (chat_query W m1 s) as [[response_messages request_id]|e] eqn:Hq.
    + pose proof (chat_Return W _ _ _ _ Hq) as Hret'. simpl in Hret'.
      rewrite Hret' in Hchat. injection Hchat as <- <-. split; [done|].
      intros Hwf. pose proof (chat_Return_history W _ _ _ _ Hwf Hq) as Hhist.
      rewrite Hret' in Hhist. simpl in Hhist.
      eexists. rewrite Hhist. split; [apply push_last|done].
    + rewrite (chat_Raise W _ _ _ Hq) in Hchat. discriminate.
Qed.

Lemma chat_ignores_client_timestamp_witness :
  chat demo (ChatMessage.mk "hello" None) init =
  chat demo (ChatMessage.mk "hello" (Some "1999-12-31T23:59:59")) init ∧
  ChatResponse.timestamp
    (ChatResponse.mk "hi there" "2024-01-01T00:00:00.0" (Some "r1")) =
  datetime_now_isoformat demo (clock init).
Proof.
  destruct (chat_ignores_client_timestamp demo (ChatMessage.mk "hello" None)
              (ChatMessage.mk "hello" (Some "1999-12-31T23:59:59")) init)
    as [Hsame Hclock]; [reflexivity|].
  split; [exact Hsame|].
  refine (proj1 (Hclock (ChatResponse.mk "hi there" "2024-01-01T00:00:00.0" (Some "r1"))
                   (chat demo (ChatMessage.mk "hello" None) init).2 _)).
  reflexivity.
Defined.

(** ** Feedback on an endpoint without feedback capability *)

(** With the flag false the handler raises [HTTPException(400)] inside its
    own [try] block; [HTTPException] is an [Exception], so the handler's
    [except Exception] clause catches it and raises a 500 in its place. *)
Lemma submit_chat_feedback_unsupported (W : World) (request_id : string) (rating : Z)
    (s : State) :
  ENDPOINT_SUPPORTS_FEEDBACK W = false →
  submit_chat_feedback W request_id rating s =
    (Raise (HTTPException 500
              ("Error submitting feedback: " +:+
               HTTPException_str W 400 "Feedback not supported by this endpoint")),
     s).
Proof.
  intros Hflag.
  unfold submit_chat_feedback, try_except_Exception, bind, raise. by rewrite Hflag.
Qed.

(** With the flag true the call is made, and recorded. *)
Lemma submit_chat_feedback_supported_calls (W : World) (request_id : string) (rating : Z)
    (s : State) :
  ENDPOINT_SUPPORTS_FEEDBACK W = true →
  calls (submit_chat_feedback W request_id rating s).2 =
    calls s ++ [Call_submit_feedback (SERVING_ENDPOINT W) request_id rating].
Proof.
  intros Hflag.
  unfold submit_chat_feedback, try_except_Exception, bind, do_submit_feedback, raise, ret.
  rewrite Hflag. simpl.
  destruct (submit_feedback W (calls s) (SERVING_ENDPOINT W) request_id rating) as [[]|e];
    simpl; [done|].
  by destruct (isinstance_Exception e).
Qed.

(** C1, at a concrete request: on an endpoint without feedback capability
    the answer to [POST /api/feedback] is HTTP 500, not the 400 that the
    handler raises first. *)
Theorem submit_chat_feedback_unsupported_answers_500 :
  ENDPOINT_SUPPORTS_FEEDBACK demo = false ∧
  (submit_chat_feedback demo "r1" 5 init).1 =
    Raise (HTTPException 500
             "Error submitting feedback: 400: Feedback not supported by this endpoint") ∧
  status_code_of (submit_chat_feedback demo "r1" 5 init).1 = Some 500 ∧
  status_code_of (submit_chat_feedback demo "r1" 5 init).1 ≠ Some 400.
Proof. repeat split; vm_compute; congruence. Qed.

(** C7: with the feedback-support flag false, [submit_chat_feedback] makes no
    external call, whatever the request id and the rating: the record of
    external calls, and the whole state, are as before. *)
Theorem submit_chat_feedback_unsupported_makes_no_call
    (W : World) (request_id : string) (rating : Z) (s : State) :
  ENDPOINT_SUPPORTS_FEEDBACK W = false →
  calls (submit_chat_feedback W request_id rating s).2 = calls s ∧
  (submit_chat_feedback W request_id rating s).2 = s.
Proof. intros Hflag. by rewrite (submit_chat_feedback_unsupported W _ _ _ Hflag). Qed.

Lemma submit_chat_feedback_unsupported_makes_no_call_witness :
  calls (submit_chat_feedback demo "r1" 5 init).2 = calls init ∧
  (submit_chat_feedback demo "r1" 5 init).2 = init.
Proof.
  apply (submit_chat_feedback_unsupported_makes_no_call demo "r1" 5 init).
  reflexivity.
Defined.

(** ** Clearing the history *)

(** C8: whatever the store holds, [clear_chat_history] returns
    [{"message": "Chat history cleared"}] (status 200, it never raises), and
    the list that [get_chat_history] returns right after it is empty; on a
    store that is already empty the content of the store does not change. *)
Theorem clear_then_list_is_empty (s : State) :
  (clear_chat_history s).1 = Return {[ "message" := "Chat history cleared" ]} ∧
  status_code_of (clear_chat_history s).1 = Some 200 ∧
  history (clear_chat_history s).2 = [] ∧
  (∃ l : loc,
     get_chat_history (clear_chat_history s).2 =
       (Return {[ "history" := l ]}, (clear_chat_history s).2) ∧
     deref (clear_chat_history s).2 l = []) ∧
  (history s = [] → history (clear_chat_history s).2 = history s).
Proof.
  unfold clear_chat_history, bind, new_list, set_chat_history_global, ret. simpl.
  assert (Hempty :
    history (mkState (<[next_loc s := []]> (heap s)) (S (next_loc s)) (next_loc s)
               (calls s) (clock s)) = []).
  { unfold history. simpl. by rewrite lookup_total_insert_eq. }
  repeat split; try done.
  - eexists. split; [done|]. exact Hempty.
  - intros Hs. by rewrite Hempty, Hs.
Qed.

Lemma clear_then_list_is_empty_witness :
  history (clear_chat_history init).2 = history init.
Proof.
  destruct (clear_then_list_is_empty init) as (_ & _ & _ & _ & Hnoop).
  apply Hnoop. reflexivity.
Defined.

(** ** The store across requests *)

Section Server.

Variable W : World.

Lemma handle_snd (rq : request) (s : State) :
  (handle W rq s).2 =
    match rq with
    | GET_health => (health_check W s).2
    | POST_chat message => (chat W message s).2
    | GET_chat_history => (get_chat_history s).2
    | DELETE_chat_history => (clear_chat_history s).2
    | POST_feedback request_id rating => (submit_chat_feedback W request_id rating s).2
    end.
Proof.
  destruct rq; simpl.
  - by destruct (health_check W s).
  - by destruct (chat W message s).
  - done.
  - done.
  - by destruct (submit_chat_feedback W request_id rating s).
Qed.

(** What a request does to the object store and to the global: [DELETE]
    rebinds the global to a new empty list; every other request leaves the
    global alone and changes at most the list it names. *)
Lemma handle_store (rq : request) (s : State) :
  let s' := (handle W rq s).2 in
  match rq with
  | DELETE_chat_history =>
      heap s' = <[next_loc s := []]> (heap s) ∧
      chat_history s' = next_loc s ∧ next_loc s' = S (next_loc s)
  | _ =>
      chat_history s' = chat_history s ∧ next_loc s' = next_loc s ∧
      ∃ f, heap s' = alter f (chat_history s) (heap s)
  end.
Proof.
  cbv zeta. rewrite handle_snd. destruct rq; simpl.
  - split; [done|]. split; [done|]. exists id. by rewrite alter_id.
  - destruct (chat_query W message s) as [[response_messages request_id]|e] eqn:Hq.
    + rewrite (chat_Return W _ _ _ _ Hq). simpl. eauto.
    + rewrite (chat_Raise W _ _ _ Hq). simpl.
      split; [done|]. split; [done|]. exists id. by rewrite alter_id.
  - split; [done|]. split; [done|]. exists id. by rewrite alter_id.
  - done.
  - destruct (submit_chat_feedback_store W request_id rating s) as (-> & -> & ->).
    split; [done|]. split; [done|]. exists id. by rewrite alter_id.
Qed.

Lemma handle_wf (rq : request) (s : State) : wf s → wf (handle W rq s).2.
Proof.
  intros [Hg Hfree]. pose proof (handle_store rq s) as Hst. cbv zeta in Hst.
  destruct rq; try (destruct Hst as (Hc & Hn & f & Hh); split;
    [ rewrite Hc, Hh; by apply lookup_alter_is_Some
    | intros l Hl; rewrite Hn in Hl; rewrite Hh, lookup_alter;
      case_decide; [subst|]; rewrite Hfree; done ]).
  destruct Hst as (Hh & Hc & Hn). split.
  - rewrite Hc, Hh, lookup_insert_eq. by eexists.
  - intros l Hl. rewrite Hn in Hl. rewrite Hh, lookup_insert_ne by lia. apply Hfree. lia.
Qed.

Lemma handle_Inv (rq : request) (s : State) : Inv s → Inv (handle W rq s).2.
Proof.
  intros [Hwf Hlen]. split; [by apply handle_wf|].
  rewrite handle_snd. destruct rq; simpl.
  - done.
  - destruct (chat_query W message s) as [[response_messages request_id]|e] eqn:Hq.
    + rewrite (chat_Return_history W _ _ _ _ Hwf Hq), push_length by done. lia.
    + by rewrite (chat_Raise W _ _ _ Hq).
  - done.
  - unfold history. simpl. rewrite lookup_total_insert_eq. simpl. lia.
  - destruct (submit_chat_feedback_store W request_id rating s) as (Hh & _ & Hc).
    unfold history in *. by rewrite Hh, Hc.
Qed.

Lemma serve_cons (rq : request) (rqs : list request) (s : State) :
  serve W (rq :: rqs) s =
    ((handle W rq s).1 :: (serve W rqs (handle W rq s).2).1,
     (serve W rqs (handle W rq s).2).2).
Proof.
  simpl. destruct (handle W rq s) as [o s']. simpl.
  by destruct (serve W rqs s') as [os s''].
Qed.

Lemma serve_Inv (rqs : list request) (s : State) : Inv s → Inv (serve W rqs s).2.
Proof.
  revert s. induction rqs as [|rq rqs IH]; intros s Hs; [done|].
  rewrite serve_cons. simpl. apply IH. by apply handle_Inv.
Qed.

Lemma init_Inv : Inv init.
Proof. split; [apply init_wf|]. vm_compute. lia. Qed.

(** A successful [chat], read back from its outcome. *)
Lemma chat_Return_inv (message : ChatMessage.t) (s s' : State) (response : ChatResponse.t) :
  wf s →
  chat W message s = (Return response, s') →
  history s' = push (exchange message response) (history s).
Proof.
  intros Hwf Hchat.
  destruct (chat_query W message s) as [[response_messages request_id]|e] eqn:Hq.
  - pose proof (chat_Return_history W _ _ _ _ Hwf Hq) as Hhist.
    pose proof (chat_Return W _ _ _ _ Hq) as Hret. simpl in Hret.
    rewrite Hchat in Hret, Hhist. injection Hret as -> _. exact Hhist.
  - rewrite (chat_Raise W _ _ _ Hq) in Hchat. discriminate.
Qed.

End Server.

(** C2: the history store holds at most 100 records in every state the
    server can reach; every operation (a chat that appends or fails, list,
    clear, and the other handlers) preserves this; records are kept in
    insertion order, an append puts the new record last and, on a full
    store, removes exactly the oldest one; listing changes nothing. *)
Theorem history_store_bounded_fifo (W : World) :
  Inv init ∧
  (∀ (rq : request) (s : State), Inv s → Inv (handle W rq s).2) ∧
  (∀ rqs : list request, (length (history (serve W rqs init).2) ≤ 100)%nat) ∧
  (∀ (message : ChatMessage.t) (s s' : State) (response : ChatResponse.t),
     Inv s →
     chat W message s = (Return response, s') →
     history s' =
       (if bool_decide (length (history s) = 100%nat)
        then drop 1 (history s) else history s) ++ [exchange message response]) ∧
  (∀ s : State, (get_chat_history s).2 = s).
Proof.
  split; [apply init_Inv|]. split; [apply handle_Inv|].
  split; [intros rqs; apply (serve_Inv W rqs init init_Inv)|].
  split; [|done].
  intros message s s' response [Hwf Hlen] Hchat.
  rewrite (chat_Return_inv W _ _ _ _ Hwf Hchat), push_eq.
  destruct (decide (length (history s) = 100%nat)) as [Heq|Hne].
  - rewrite bool_decide_eq_true_2 by lia. by rewrite bool_decide_eq_true_2 by done.
  - rewrite bool_decide_eq_false_2 by lia. by rewrite bool_decide_eq_false_2 by done.
Qed.

Lemma history_store_bounded_fifo_witness :
  Inv (handle demo (POST_chat hello) init).2 ∧
  history (chat demo hello init).2 =
    [ ChatExchange.mk "hello" "hi there" "2024-01-01T00:00:00.0" (Some "r1") ].
Proof.
  destruct (history_store_bounded_fifo demo) as (Hinit & Hstep & _ & Hfifo & _).
  split; [exact (Hstep (POST_chat hello) init Hinit)|].
  refine (Hfifo hello init (chat demo hello init).2
            (ChatResponse.mk "hi there" "2024-01-01T00:00:00.0" (Some "r1")) Hinit _).
  reflexivity.
Defined.

(** ** A run of successful chats *)

Lemma serve_chats_history (W : World) (messages : list ChatMessage.t) :
  ∀ (responses : list ChatResponse.t) (s0 s : State),
    wf s0 → (length (history s0) ≤ 100)%nat →
    serve W (POST_chat <$> messages) s0 = ((λ r, Chat (Return r)) <$> responses, s) →
    length responses = length messages ∧
    history s =
      drop (length (history s0) + length messages - 100)
        (history s0 ++ zip_with exchange messages responses).
Proof.
  induction messages as [|m messages IH]; intros responses s0 s Hwf Hlen Hrun.
  - simpl in Hrun. injection Hrun as Hos <-.
    destruct responses; [|discriminate]. split; [done|]. simpl.
    rewrite app_nil_r. replace (length (history s0) + 0 - 100)%nat with 0%nat by lia.
    done.
  - rewrite fmap_cons, serve_cons in Hrun.
    destruct responses as [|r responses]; [discriminate|].
    rewrite fmap_cons in Hrun. injection Hrun as Ho Hos Hs.
    destruct (chat W m s0) as [r0 s1] eqn:Hchat. simpl in Ho, Hos, Hs.
    injection Ho as ->.
    pose proof (chat_Return_inv W _ _ _ _ Hwf Hchat) as Hh1.
    assert (Hwf1 : wf s1).
    { pose proof (chat_wf W m s0 Hwf) as Hw. by rewrite Hchat in Hw. }
    assert (Hlen1 : (length (history s1) ≤ 100)%nat).
    { rewrite Hh1, push_length by done. lia. }
    destruct (IH responses s1 s Hwf1 Hlen1) as [Hlr Hhist].
    { rewrite <- Hs, <- Hos. by destruct (serve W (POST_chat <$> messages) s1). }
    cbn [length zip_with]. split; [by rewrite Hlr|].
    rewrite Hhist, Hh1, push_eq.
    destruct (decide (100 ≤ length (history s0))%nat) as [Hfull|Hroom].
    + rewrite bool_decide_eq_true_2 by done.
      destruct (history s0) as [|y t] eqn:Hh0; cbn [length] in *; [lia|].
      cbn [drop]. rewrite drop_0, length_app, <- !app_assoc. cbn [length app].
      replace (length t + 1 + length messages - 100)%nat with (length messages) by lia.
      replace (S (length t) + S (length messages) - 100)%nat
        with (S (length messages)) by lia.
      done.
    + rewrite bool_decide_eq_false_2 by done.
      rewrite length_app, <- app_assoc. cbn [length app].
      by replace (length (history s0) + 1 + length messages - 100)%nat
        with (length (history s0) + S (length messages) - 100)%nat by lia.
Qed.

(** C3: after N successful chat calls on an empty store (the initial one, or
    one that was cleared), the list that [get_chat_history] returns holds
    exactly min(N, 100) records, oldest first, in the order the calls
    completed: all N of them when N <= 100, and the last 100 (the oldest
    N - 100 gone) when N > 100. *)
Theorem history_after_successful_chats
    (W : World) (messages : list ChatMessage.t) (responses : list ChatResponse.t)
    (s0 s : State) :
  wf s0 →
  history s0 = [] →
  serve W (POST_chat <$> messages) s0 = ((λ r, Chat (Return r)) <$> responses, s) →
  let N := length messages in
  let records := zip_with exchange messages responses in
  length records = N ∧
  (∃ l : loc,
     get_chat_history s = (Return {[ "history" := l ]}, s) ∧
     deref s l = drop (N - 100) records) ∧
  length (history s) = Nat.min N 100 ∧
  ((N ≤ 100)%nat → history s = records) ∧
  ((100 < N)%nat → history s = drop (N - 100) records).
Proof.
  intros Hwf Hempty Hrun N records.
  destruct (serve_chats_history W messages responses s0 s Hwf) as [Hlr Hhist];
    [rewrite Hempty; simpl; lia|exact Hrun|].
  rewrite Hempty in Hhist. cbn [length app Nat.add] in Hhist.
  fold records in Hhist. fold N in Hhist.
  assert (Hlen : length records = N).
  { unfold records, N. rewrite length_zip_with. lia. }
  split; [exact Hlen|]. split.
  { exists (chat_history s). split; [done|]. exact Hhist. }
  split; [rewrite Hhist, length_drop; lia|].
  split; intros HN; rewrite Hhist; [|done].
  by replace (N - 100)%nat with 0%nat by lia.
Qed.

(** The concrete world answers every [hello]. *)
Lemma serve_demo_hello (n : nat) (s : State) :
  (serve demo (POST_chat <$> replicate n hello) s).1 =
    (λ r, Chat (Return r)) <$> hello_responses (clock s) n.
Proof.
  revert s. induction n as [|n IH]; intros s; [done|].
  change (replicate (S n) hello) with (hello :: replicate n hello).
  rewrite fmap_cons, serve_cons. cbn [fst]. rewrite handle_snd. cbn [handle].
  assert (Hq : chat_query demo hello s =
               Return ([ {[ "role" := "assistant"; "content" := "hi there" ]} ], Some "r1"))
    by reflexivity.
  pose proof (chat_Return demo _ _ _ _ Hq) as Hchat. cbv zeta in Hchat.
  rewrite Hchat. cbn [fst snd]. rewrite IH. cbn [clock].
  unfold hello_responses. cbn [seq]. rewrite !fmap_cons. done.
Qed.

Lemma history_after_successful_chats_witness :
  length (history (serve demo (POST_chat <$> replicate 101 hello) init).2) = 100%nat ∧
  history (serve demo (POST_chat <$> replicate 101 hello) init).2 =
    drop 1 (zip_with exchange (replicate 101 hello) (hello_responses 0 101)).
Proof.
  destruct (history_after_successful_chats demo (replicate 101 hello) (hello_responses 0 101)
              init (serve demo (POST_chat <$> replicate 101 hello) init).2)
    as (_ & _ & Hlen & _ & Hlast).
  - apply init_wf.
  - reflexivity.
  - change (hello_responses 0 101) with (hello_responses (clock init) 101).
    rewrite <- (serve_demo_hello 101 init).
    by destruct (serve demo (POST_chat <$> replicate 101 hello) init).
  - rewrite length_replicate in Hlen, Hlast. split; [exact Hlen|]. apply Hlast. lia.
Defined.

(** ** The list that [GET /api/chat/history] returns *)

Section Listing.

Variable W : World.

Lemma serve_http_cons (rq : request) (rqs : list request) (s : State) :
  serve_http W (rq :: rqs) s =
    (send (handle W rq s).2 (handle W rq s).1 :: (serve_http W rqs (handle W rq s).2).1,
     (serve_http W rqs (handle W rq s).2).2).
Proof.
  simpl. unfold respond. destruct (handle W rq s) as [o s']. simpl.
  by destruct (serve_http W rqs s') as [rs s''].
Qed.

(** The encoded responses do not change what the server does. *)
Lemma serve_http_state (rqs : list request) (s : State) :
  (serve_http W rqs s).2 = (serve W rqs s).2.
Proof.
  revert s. induction rqs as [|rq rqs IH]; intros s; [done|].
  rewrite serve_http_cons, serve_cons. simpl. apply IH.
Qed.




End Listing.

(** The moment of the encoding matters: the dict that the handler returned
    holds the list object, and encoded one chat later it would show that
    chat's record. *)
Remark encoding_one_chat_later_differs :
  encode_history init (get_chat_history init).1 = Return {[ "history" := [] ]} ∧
  encode_history (chat demo hello init).2 (get_chat_history init).1 =
    Return {[ "history" :=
      [ ChatExchange.mk "hello" "hi there" "2024-01-01T00:00:00.0" (Some "r1") ] ]}.
Proof. split; reflexivity. Qed.


(** ** Further properties of the handlers *)

(** X1: the serving endpoint is never the empty string: it is the value of
    the environment variable when that is set and non-empty, and the default
    endpoint when the variable is unset or empty. *)
Theorem SERVING_ENDPOINT_configured_or_default (W : World) :
  SERVING_ENDPOINT W ≠ "" ∧
  (∀ v : string,
     getenv_SERVING_ENDPOINT W = Some v → v ≠ "" → SERVING_ENDPOINT W = v) ∧
  (getenv_SERVING_ENDPOINT W = None ∨ getenv_SERVING_ENDPOINT W = Some "" →
   SERVING_ENDPOINT W = "ka-981b9343-endpoint").
Proof.
  unfold SERVING_ENDPOINT. split; [|split].
  - destruct (getenv_SERVING_ENDPOINT W) as [v|]; [|done].
    destruct (String.eqb v "") eqn:Hv; [done|]. by apply String.eqb_neq.
  - intros v -> Hv. apply String.eqb_neq in Hv. by rewrite Hv.
  - intros [->| ->]; done.
Qed.

Lemma handle_calls (W : World) (rq : request) (s : State) :
  calls (handle W rq s).2 = calls s ++ calls_of W rq.
Proof.
  rewrite handle_snd. destruct rq; simpl.
  - by rewrite app_nil_r.
  - destruct (chat_query W message s) as [[response_messages request_id]|e] eqn:Hq.
    + by rewrite (chat_Return W _ _ _ _ Hq).
    + by rewrite (chat_Raise W _ _ _ Hq).
  - by rewrite app_nil_r.
  - by rewrite app_nil_r.
  - destruct (ENDPOINT_SUPPORTS_FEEDBACK W) eqn:Hflag.
    + by apply submit_chat_feedback_supported_calls.
    + rewrite (submit_chat_feedback_unsupported W _ _ _ Hflag). simpl.
      by rewrite app_nil_r.
Qed.

(** X2: the external calls of a run are fixed by its requests, whatever the
    outcomes: one [query_endpoint] call per chat request (configured
    endpoint, the user's text as the only message, 400 tokens, traces as the
    feedback flag says), one [submit_feedback] call per feedback request on
    an endpoint that supports feedback, and none for any other request.  No
    call is repeated after a failure. *)
Theorem external_calls_follow_requests (W : World) (rqs : list request) (s : State) :
  calls (serve W rqs s).2 = calls s ++ concat (calls_of W <$> rqs).
Proof.
  revert s. induction rqs as [|rq rqs IH]; intros s.
  - simpl. by rewrite app_nil_r.
  - rewrite serve_cons. cbn [snd]. rewrite IH, handle_calls, fmap_cons.
    simpl. by rewrite app_assoc.
Qed.

(** X3: for message lists of text-valued dicts, the handler [chat] returns
    a response exactly when the inference call returns: no returned list
    makes it raise, be it empty or with entries that lack the role or the
    content key; and when the inference client raises an [HTTPException],
    the handler raises a 500 in its place, whatever the status code of the
    one it caught. *)
Theorem chat_returns_iff_inference_returns
    (W : World) (message : ChatMessage.t) (s : State) :
  ((∃ response, (chat W message s).1 = Return response) ↔
   ∃ response_messages request_id,
     chat_query W message s = Return (response_messages, request_id)) ∧
  (∀ (status_code : Z) (detail : string),
     chat_query W message s = Raise (HTTPException status_code detail) →
     (chat W message s).1 =
       Raise (HTTPException 500
                ("Error processing message: " +:+ HTTPException_str W status_code detail))).
Proof.
  destruct (chat_query W message s) as [[response_messages request_id]|e] eqn:Hq.
  - rewrite (chat_Return W _ _ _ _ Hq). simpl. split; [|done].
    split; eauto.
  - rewrite (chat_Raise W _ _ _ Hq). simpl. split.
    + split.
      * intros [response Hr]. discriminate.
      * intros (? & ? & ?). discriminate.
    + intros status_code detail [= ->]. done.
Qed.

Lemma reply_nonempty (response_messages : list dict) : reply response_messages ≠ "".
Proof.
  unfold reply. destruct (first_reply response_messages) as [c|]; [|done].
  destruct (String.eqb c "") eqn:Hc; [done|]. by apply String.eqb_neq.
Qed.

(** X4: the message of a successful [chat] response is never empty. *)
Theorem chat_response_message_nonempty
    (W : World) (message : ChatMessage.t) (s s' : State) (response : ChatResponse.t) :
  chat W message s = (Return response, s') →
  ChatResponse.message response ≠ "".
Proof.
  intros Hchat.
  destruct (chat_query W message s) as [[response_messages request_id]|e] eqn:Hq.
  - rewrite (chat_Return W _ _ _ _ Hq) in Hchat. injection Hchat as <- _.
    apply reply_nonempty.
  - rewrite (chat_Raise W _ _ _ Hq) in Hchat. discriminate.
Qed.

Lemma chat_response_message_nonempty_witness :
  ChatResponse.message
    (ChatResponse.mk "I'm sorry, I couldn't generate a response. Please try again."
       "2024-01-01T00:00:00.0" None) ≠ "".
Proof.
  apply (chat_response_message_nonempty demo (ChatMessage.mk "none" None) init
           (chat demo (ChatMessage.mk "none" None) init).2).
  reflexivity.
Defined.

(** X5: the record that a successful [chat] appends mirrors the exchange: the
    user's text verbatim (the empty text included), and the message, the
    timestamp and the request id of the response; the request id is the one
    the inference call returned, absent when it returned none. *)
Theorem chat_stores_request_and_response
    (W : World) (message : ChatMessage.t) (s s' : State) (response : ChatResponse.t) :
  wf s →
  chat W message s = (Return response, s') →
  last (history s') =
    Some (ChatExchange.mk (ChatMessage.message message) (ChatResponse.message response)
            (ChatResponse.timestamp response) (ChatResponse.request_id response)) ∧
  ∃ response_messages,
    chat_query W message s =
      Return (response_messages, ChatResponse.request_id response).
Proof.
  intros Hwf Hchat. split.
  - rewrite (chat_Return_inv W _ _ _ _ Hwf Hchat). apply push_last.
  - destruct (chat_query W message s) as [[response_messages request_id]|e] eqn:Hq.
    + rewrite (chat_Return W _ _ _ _ Hq) in Hchat. injection Hchat as <- _. eauto.
    + rewrite (chat_Raise W _ _ _ Hq) in Hchat. discriminate.
Qed.

Lemma chat_stores_request_and_response_witness :
  last (history (chat demo (ChatMessage.mk "" None) init).2) =
    Some (ChatExchange.mk "" "hi there" "2024-01-01T00:00:00.0" (Some "r1")) ∧
  ∃ response_messages,
    chat_query demo (ChatMessage.mk "" None) init = Return (response_messages, Some "r1").
Proof.
  apply (chat_stores_request_and_response demo (ChatMessage.mk "" None) init
           (chat demo (ChatMessage.mk "" None) init).2
           (ChatResponse.mk "hi there" "2024-01-01T00:00:00.0" (Some "r1"))).
  - apply init_wf.
  - reflexivity.
Defined.

(** X6: on an endpoint that supports feedback the rating is forwarded as it
    is, any integer, in one [submit_feedback] call; when that call returns the
    answer is [{"message": "Feedback submitted successfully"}], and when it
    raises an error the answer is 500 with detail
    ["Error submitting feedback: <str(e)>"]. *)
Theorem submit_chat_feedback_supported_forwards
    (W : World) (request_id : string) (rating : Z) (s : State) :
  ENDPOINT_SUPPORTS_FEEDBACK W = true →
  calls (submit_chat_feedback W request_id rating s).2 =
    calls s ++ [Call_submit_feedback (SERVING_ENDPOINT W) request_id rating] ∧
  (submit_feedback W (calls s) (SERVING_ENDPOINT W) request_id rating = Return tt →
   (submit_chat_feedback W request_id rating s).1 =
     Return {[ "message" := "Feedback submitted successfully" ]}) ∧
  (∀ e : exception,
     submit_feedback W (calls s) (SERVING_ENDPOINT W) request_id rating = Raise e →
     isinstance_Exception e = true →
     (submit_chat_feedback W request_id rating s).1 =
       Raise (HTTPException 500 ("Error submitting feedback: " +:+ str W e))).
Proof.
  intros Hflag. split; [by apply submit_chat_feedback_supported_calls|].
  unfold submit_chat_feedback, try_except_Exception, bind, do_submit_feedback, raise, ret.
  rewrite Hflag. simpl. split.
  - by intros ->.
  - intros e -> He. simpl. by rewrite He.
Qed.

Lemma submit_chat_feedback_supported_forwards_witness :
  calls (submit_chat_feedback demo_fb "gone" (-7) init).2 =
    [Call_submit_feedback "agents-prod" "gone" (-7)] ∧
  (submit_chat_feedback demo_fb "r1" 0 init).1 =
    Return {[ "message" := "Feedback submitted successfully" ]} ∧
  (submit_chat_feedback demo_fb "gone" (-7) init).1 =
    Raise (HTTPException 500 "Error submitting feedback: request not found").
Proof.
  destruct (submit_chat_feedback_supported_forwards demo_fb "gone" (-7) init eq_refl)
    as (Hcalls & _ & Hfail).
  destruct (submit_chat_feedback_supported_forwards demo_fb "r1" 0 init eq_refl)
    as (_ & Hok & _).
  split; [exact Hcalls|]. split; [exact (Hok eq_refl)|].
  exact (Hfail (Exception "request not found") eq_refl eq_refl).
Defined.

(** X7: [submit_chat_feedback] never answers 400.  It answers 200 exactly
    when the endpoint supports feedback and [submit_feedback] returns;
    otherwise it answers 500, unless [submit_feedback] raised something that
    is not an [Exception], which passes through. *)
Theorem submit_chat_feedback_status
    (W : World) (request_id : string) (rating : Z) (s : State) :
  status_code_of (submit_chat_feedback W request_id rating s).1 ≠ Some 400 ∧
  (status_code_of (submit_chat_feedback W request_id rating s).1 = Some 200 ↔
   ENDPOINT_SUPPORTS_FEEDBACK W = true ∧
   submit_feedback W (calls s) (SERVING_ENDPOINT W) request_id rating = Return tt) ∧
  (status_code_of (submit_chat_feedback W request_id rating s).1 = Some 200 ∨
   status_code_of (submit_chat_feedback W request_id rating s).1 = Some 500 ∨
   ∃ description,
     submit_feedback W (calls s) (SERVING_ENDPOINT W) request_id rating =
       Raise (BaseException description) ∧
     (submit_chat_feedback W request_id rating s).1 = Raise (BaseException description)).
Proof.
  unfold submit_chat_feedback, try_except_Exception, bind, do_submit_feedback, raise, ret.
  destruct (ENDPOINT_SUPPORTS_FEEDBACK W); simpl.
  - destruct (submit_feedback W (calls s) (SERVING_ENDPOINT W) request_id rating)
      as [[]|e]; simpl.
    + split; [done|]. split; [done|]. by left.
    + destruct e; simpl.
      * split; [done|]. split; [|by right; left]. split; [done|]. by intros [_ ?].
      * split; [done|]. split; [|by right; left]. split; [done|]. by intros [_ ?].
      * split; [done|]. split; [|right; right; eauto]. split; [done|]. by intros [_ ?].
  - split; [done|]. split; [|by right; left]. split; [done|]. by intros [? _].
Qed.

(** X8: only a chat and a clear touch the history.  The health check, the
    listing and the feedback handler, whatever their outcome, leave the
    object store and the global as they were. *)
Theorem history_untouched_by_other_requests (W : World) (rq : request) (s : State) :
  (∀ message, rq ≠ POST_chat message) →
  rq ≠ DELETE_chat_history →
  heap (handle W rq s).2 = heap s ∧
  chat_history (handle W rq s).2 = chat_history s ∧
  history (handle W rq s).2 = history s.
Proof.
  intros Hchat Hclear. rewrite handle_snd. destruct rq; simpl.
  - done.
  - by destruct (Hchat message).
  - done.
  - done.
  - destruct (submit_chat_feedback_store W request_id rating s) as (Hh & _ & Hc).
    unfold history. by rewrite Hh, Hc.
Qed.

Lemma history_untouched_by_other_requests_witness :
  history (handle demo_fb (POST_feedback "gone" 3) init).2 = history init.
Proof.
  destruct (history_untouched_by_other_requests demo_fb (POST_feedback "gone" 3) init)
    as (_ & _ & Hhist); [discriminate|discriminate|exact Hhist].
Defined.

(** ** Further properties of the history across requests *)

Lemma chat_Raise_inv (W : World) (message : ChatMessage.t) (s s' : State) (e : exception) :
  chat W message s = (Raise e, s') → history s' = history s.
Proof.
  intros Hchat.
  destruct (chat_query W message s) as [[response_messages request_id]|e'] eqn:Hq.
  - rewrite (chat_Return W _ _ _ _ Hq) in Hchat. discriminate.
  - rewrite (chat_Raise W _ _ _ Hq) in Hchat. by injection Hchat as _ <-.
Qed.

Lemma replay_handle (W : World) (rq : request) (s : State)
    (rest : list (request * outcome)) :
  wf s →
  replay ((rq, (handle W rq s).1) :: rest) (history s) =
    replay rest (history (handle W rq s).2).
Proof.
  intros Hwf. destruct rq; simpl.
  - by destruct (health_check W s).
  - destruct (chat W message s) as [[response|e] s1] eqn:Hchat; simpl.
    + by rewrite (chat_Return_inv W _ _ _ _ Hwf Hchat).
    + by rewrite (chat_Raise_inv W _ _ _ _ Hchat).
  - done.
  - unfold history. simpl. by rewrite lookup_total_insert_eq.
  - destruct (submit_chat_feedback W request_id rating s) as [r s1] eqn:Hfb. simpl.
    destruct (submit_chat_feedback_store W request_id rating s) as (Hh & _ & Hc).
    rewrite Hfb in Hh, Hc. simpl in Hh, Hc. unfold history. by rewrite Hh, Hc.
Qed.

(** X9: the history is a function of the log of requests and outcomes: from
    a well-formed state, after any sequence of requests it is what replaying
    the log gives, where a chat that returned appends its record under the
    bound of 100, a clear empties, and a failed chat, a listing, a health
    check and a feedback request change nothing. *)
Theorem history_is_replay_of_log (W : World) (rqs : list request) (s : State) :
  wf s →
  history (serve W rqs s).2 = replay (zip rqs (serve W rqs s).1) (history s).
Proof.
  revert s. induction rqs as [|rq rqs IH]; intros s Hwf; [done|].
  rewrite serve_cons. cbn [fst snd zip zip_with].
  rewrite (IH _ (handle_wf W rq s Hwf)). by rewrite replay_handle.
Qed.

Lemma history_is_replay_of_log_witness :
  history
    (serve demo
       [ POST_chat hello; DELETE_chat_history; POST_chat (ChatMessage.mk "fail" None);
         GET_chat_history; POST_chat (ChatMessage.mk "multi" None) ] init).2 =
  [ ChatExchange.mk "multi" "first" "2024-01-01T00:00:00.1" (Some "r2") ].
Proof.
  exact (history_is_replay_of_log demo
           [ POST_chat hello; DELETE_chat_history; POST_chat (ChatMessage.mk "fail" None);
             GET_chat_history; POST_chat (ChatMessage.mk "multi" None) ] init init_wf).
Defined.

(** X10: on a store that already holds records, a run of N successful chats
    leaves the last min(n0 + N, 100) of the old records followed by the new
    ones, in that order; from N = 100 on, no old record is left. *)
Theorem history_after_chats_on_any_store
    (W : World) (messages : list ChatMessage.t) (responses : list ChatResponse.t)
    (s0 s : State) :
  wf s0 →
  (length (history s0) ≤ 100)%nat →
  serve W (POST_chat <$> messages) s0 = ((λ r, Chat (Return r)) <$> responses, s) →
  let N := length messages in
  let records := zip_with exchange messages responses in
  history s = drop (length (history s0) + N - 100) (history s0 ++ records) ∧
  length (history s) = Nat.min (length (history s0) + N) 100 ∧
  ((100 ≤ N)%nat → history s = drop (N - 100) records).
Proof.
  intros Hwf Hlen Hrun N records.
  destruct (serve_chats_history W messages responses s0 s Hwf Hlen Hrun) as [Hlr Hhist].
  fold records in Hhist. fold N in Hhist.
  assert (Hrecords : length records = N).
  { unfold records, N. rewrite length_zip_with. lia. }
  split; [exact Hhist|]. split.
  - rewrite Hhist, length_drop, length_app. lia.
  - intros HN. rewrite Hhist, drop_app.
    rewrite drop_ge by lia. simpl. f_equal. lia.
Qed.

Lemma history_after_chats_on_any_store_witness :
  history (serve demo (POST_chat <$> [hello]) (chat demo hello init).2).2 =
    [ ChatExchange.mk "hello" "hi there" "2024-01-01T00:00:00.0" (Some "r1");
      ChatExchange.mk "hello" "hi there" "2024-01-01T00:00:00.1" (Some "r1") ].
Proof.
  destruct (handle_Inv demo (POST_chat hello) init init_Inv) as [Hwf Hlen].
  destruct (history_after_chats_on_any_store demo [hello]
              [ ChatResponse.mk "hi there" "2024-01-01T00:00:00.1" (Some "r1") ]
              (chat demo hello init).2
              (serve demo (POST_chat <$> [hello]) (chat demo hello init).2).2)
    as (Hhist & _ & _).
  - exact Hwf.
  - exact Hlen.
  - reflexivity.
  - exact Hhist.
Defined.

Lemma history_untouched_by_requests_aux (W : World) (request_id : string) (rating : Z)
    (s : State) :
  history (handle W (POST_feedback request_id rating) s).2 = history s.
Proof.
  rewrite handle_snd.
  destruct (submit_chat_feedback_store W request_id rating s) as (Hh & _ & Hc).
  unfold history. by rewrite Hh, Hc.
Qed.

Lemma push_then_drop (x : ChatExchange.t) (h rest : list ChatExchange.t) :
  (length h ≤ 100)%nat →
  drop (length (push x h) + length rest - 100) (push x h ++ rest) =
    drop (length h + S (length rest) - 100) (h ++ x :: rest).
Proof.
  intros Hlen. rewrite push_eq.
  destruct (decide (100 ≤ length h)%nat) as [Hfull|Hroom].
  - rewrite bool_decide_eq_true_2 by done.
    destruct h as [|y t]; cbn [length] in *; [lia|].
    cbn [drop]. rewrite drop_0, length_app, <- !app_assoc. cbn [length app].
    replace (length t + 1 + length rest - 100)%nat with (length rest) by lia.
    by replace (S (length t) + S (length rest) - 100)%nat with (S (length rest)) by lia.
  - rewrite bool_decide_eq_false_2 by done.
    rewrite length_app, <- app_assoc. cbn [length app].
    by replace (length h + 1 + length rest - 100)%nat
      with (length h + S (length rest) - 100)%nat by lia.
Qed.

Lemma appended_handle (W : World) (rq : request) (s : State)
    (log : list (request * outcome)) :
  wf s → (length (history s) ≤ 100)%nat → rq ≠ DELETE_chat_history →
  drop (length (history (handle W rq s).2) + length (appended log) - 100)
    (history (handle W rq s).2 ++ appended log) =
  drop (length (history s) + length (appended ((rq, (handle W rq s).1) :: log)) - 100)
    (history s ++ appended ((rq, (handle W rq s).1) :: log)).
Proof.
  intros Hwf Hlen Hrq. destruct rq.
  - simpl. by destruct (health_check W s).
  - cbn [handle]. destruct (chat W message s) as [[response|e] s1] eqn:Hchat;
      cbn [fst snd appended length].
    + rewrite (chat_Return_inv W _ _ _ _ Hwf Hchat). by apply push_then_drop.
    + by rewrite (chat_Raise_inv W _ _ _ _ Hchat).
  - done.
  - done.
  - rewrite history_untouched_by_requests_aux. simpl.
    by destruct (submit_chat_feedback W request_id rating s).
Qed.

(** X11: records are neither rewritten nor reordered: as long as no clear
    intervenes, whatever the requests and their outcomes, the history is the
    last 100 (all, when there are fewer) of the earlier records followed by
    the records of the chats that returned since, each group in its order. *)
Theorem history_keeps_records_in_order (W : World) (rqs : list request) (s : State) :
  Inv s →
  DELETE_chat_history ∉ rqs →
  let new := appended (zip rqs (serve W rqs s).1) in
  history (serve W rqs s).2 =
    drop (length (history s) + length new - 100) (history s ++ new).
Proof.
  revert s. induction rqs as [|rq rqs IH]; intros s [Hwf Hlen] Hno.
  - simpl. rewrite app_nil_r.
    by replace (length (history s) + 0 - 100)%nat with 0%nat by lia.
  - assert (Hrest : DELETE_chat_history ∉ rqs) by (intros Hin; apply Hno; by right).
    assert (Hrq : rq ≠ DELETE_chat_history) by (intros ->; apply Hno; by left).
    pose proof (IH _ (handle_Inv W rq s (conj Hwf Hlen)) Hrest) as Hih.
    cbv zeta in Hih. cbv zeta.
    rewrite serve_cons. cbn [fst snd zip zip_with]. rewrite Hih.
    by apply appended_handle.
Qed.

Lemma history_keeps_records_in_order_witness :
  history
    (serve demo
       [ POST_chat hello; POST_chat (ChatMessage.mk "fail" None); GET_chat_history;
         POST_feedback "r1" 5; POST_chat (ChatMessage.mk "multi" None) ] init).2 =
  [ ChatExchange.mk "hello" "hi there" "2024-01-01T00:00:00.0" (Some "r1");
    ChatExchange.mk "multi" "first" "2024-01-01T00:00:00.1" (Some "r2") ].
Proof.
  refine (history_keeps_records_in_order demo
            [ POST_chat hello; POST_chat (ChatMessage.mk "fail" None); GET_chat_history;
              POST_feedback "r1" 5; POST_chat (ChatMessage.mk "multi" None) ] init
            init_Inv _).
  intros Hin. repeat (apply elem_of_cons in Hin as [Hin|Hin]; [discriminate|]).
  by apply elem_of_nil in Hin.
Defined.

(** X12: the history never feeds back into an answer: the outcome of a
    health check, a chat, a clear or a feedback request is the same in two
    states that agree on the clock and on the external calls made so far,
    whatever their stores hold. *)
Theorem outcome_independent_of_history (W : World) (rq : request) (s1 s2 : State) :
  calls s1 = calls s2 →
  clock s1 = clock s2 →
  rq ≠ GET_chat_history →
  (handle W rq s1).1 = (handle W rq s2).1.
Proof.
  intros Hcalls Hclock Hrq. destruct rq; simpl.
  - unfold health_check, bind, now_isoformat, ret. simpl. by rewrite Hclock.
  - assert (Hq : chat_query W message s1 = chat_query W message s2).
    { unfold chat_query. by rewrite Hcalls. }
    destruct (chat_query W message s2) as [[response_messages request_id]|e] eqn:Hq2.
    + rewrite (chat_Return W _ _ _ _ Hq), (chat_Return W _ _ _ _ Hq2). simpl.
      by rewrite Hclock.
    + by rewrite (chat_Raise W _ _ _ Hq), (chat_Raise W _ _ _ Hq2).
  - done.
  - done.
  - unfold submit_chat_feedback, try_except_Exception, bind, do_submit_feedback, raise, ret.
    destruct (ENDPOINT_SUPPORTS_FEEDBACK W); simpl; [|done].
    rewrite Hcalls.
    destruct (submit_feedback W (calls s2) (SERVING_ENDPOINT W) request_id rating)
      as [[]|e]; simpl; [done|].
    by destruct (isinstance_Exception e).
Qed.

Lemma outcome_independent_of_history_witness :
  (handle demo (POST_chat hello) (handle demo (POST_chat hello) init).2).1 =
  (handle demo (POST_chat hello)
     (mkState ∅ 0 0 (calls (handle demo (POST_chat hello) init).2) 1)).1.
Proof.
  apply (outcome_independent_of_history demo (POST_chat hello)
           (handle demo (POST_chat hello) init).2
           (mkState ∅ 0 0 (calls (handle demo (POST_chat hello) init).2) 1)).
  - reflexivity.
  - reflexivity.
  - discriminate.
Defined.
